(** * Verification of the file-uploader upload/download protocol

    Shallow embedding of the TypeScript sources:
    - [lib/s3.ts]                 : [createPresignedUploadUrl], [getFileByS3Key]
    - [app/api/upload/route.ts]   : [handleUpload_route]   (current handler)
    - the sibling upload handler  : [handleUpload_presigned] (older copy, with
                                    the wildcard skip and the JSON guard)
    - [app/api/download/route.ts] : [handleDownload]
    - [app/hooks/useFileUploader] : [validate_client], [uploadToS3_settle],
                                    and the hook as a step function [step]. *)

From Stdlib Require Import ZArith List String Ascii Bool Lia.
Import ListNotations.
Open Scope string_scope.
Open Scope Z_scope.
#[local] Set Warnings "-register-all".

(* ------------------------------------------------------------------ *)
(** ** JavaScript values as they come out of [request.json()] *)

(** JSON numbers are modelled as integers: the only numeric fields the code
    reads are byte counts.  Objects keep their keys in source order. *)
Inductive jsval : Type :=
| JUndef
| JNull
| JBool (b : bool)
| JNum (n : Z)
| JStr (s : string)
| JArr (l : list jsval)
| JObj (fields : list (string * jsval)).

(** ECMAScript ToBoolean: [false], [0], [""], [null], [undefined] are falsy,
    every object (arrays included) is truthy. *)
Definition js_truthy (v : jsval) : bool :=
  match v with
  | JUndef | JNull => false
  | JBool b => b
  | JNum n => negb (n =? 0)
  | JStr s => negb (String.eqb s "")
  | JArr _ | JObj _ => true
  end.

(** Property read [v.k] as done by object destructuring: [None] when it
    throws (destructuring [null] or [undefined] is a TypeError), [JUndef]
    when the property is absent.  [JSON.parse] keeps the last duplicate key. *)
Fixpoint assoc_last (k : string) (l : list (string * jsval)) : option jsval :=
  match l with
  | [] => None
  | (k', v) :: rest =>
      match assoc_last k rest with
      | Some w => Some w
      | None => if String.eqb k k' then Some v else None
      end
  end.

Definition js_get (v : jsval) (k : string) : option jsval :=
  match v with
  | JUndef | JNull => None
  | JObj fs => Some (match assoc_last k fs with Some w => w | None => JUndef end)
  | _ => Some JUndef
  end.

(** Decimal rendering of integers, as in template literals. *)
Definition digit_char (d : Z) : ascii := ascii_of_nat (48 + Z.to_nat d).

Fixpoint pos_digits (fuel : nat) (n : Z) (acc : string) : string :=
  match fuel with
  | O => acc
  | S fuel' =>
      let acc' := String (digit_char (n mod 10)) acc in
      if n <? 10 then acc' else pos_digits fuel' (n / 10) acc'
  end.

Definition Z_to_dec (n : Z) : string :=
  if n <? 0 then "-" ++ pos_digits (Z.to_nat (Z.log2 (- n)) + 1) (- n) ""
  else pos_digits (Z.to_nat (Z.log2 n) + 1) n "".

(** ECMAScript ToString (arrays join their elements with ",", [null] and
    [undefined] elements rendering as the empty string). *)
Fixpoint js_to_string (v : jsval) : string :=
  match v with
  | JUndef => "undefined"
  | JNull => "null"
  | JBool true => "true"
  | JBool false => "false"
  | JNum n => Z_to_dec n
  | JStr s => s
  | JArr l =>
      let fix join (l : list jsval) : string :=
        match l with
        | [] => ""
        | [x] => match x with JUndef | JNull => "" | _ => js_to_string x end
        | x :: rest =>
            (match x with JUndef | JNull => "" | _ => js_to_string x end)
              ++ "," ++ join rest
        end in
      join l
  | JObj _ => "[object Object]"
  end.

(** ECMAScript StringToNumber.  A finite numeral is kept exactly as
    [Finite m e], the value [m * 10^e]; the engine rounds it to the nearest
    double, which can only matter for numerals whose value lies within one
    rounding step of the number they are compared with. *)
Inductive jsnum : Type :=
| NaN
| Finite (m e : Z)
| PosInf
| NegInf.

(** White space and line terminators that [StringToNumber] trims (the
    Latin-1 range of them: TAB, LF, VT, FF, CR, space, no-break space). *)
Definition is_ws (c : ascii) : bool :=
  match nat_of_ascii c with 9 | 10 | 11 | 12 | 13 | 32 | 160 => true | _ => false end%nat.

Fixpoint drop_ws (s : string) : string :=
  match s with
  | EmptyString => EmptyString
  | String c rest => if is_ws c then drop_ws rest else s
  end.

Fixpoint rev_str (s : string) (acc : string) : string :=
  match s with
  | EmptyString => acc
  | String c rest => rev_str rest (String c acc)
  end.

Definition trim (s : string) : string :=
  rev_str (drop_ws (rev_str (drop_ws s) EmptyString)) EmptyString.

(** The value of a digit in radix [r] (up to 16), if it is one. *)
Definition radix_digit (r : Z) (c : ascii) : option Z :=
  let n := Z.of_nat (nat_of_ascii c) in
  let d := if (48 <=? n) && (n <=? 57) then n - 48
           else if (97 <=? n) && (n <=? 102) then n - 87
           else if (65 <=? n) && (n <=? 70) then n - 55
           else 99 in
  if d <? r then Some d else None.

(** Read the longest run of radix-[r] digits, accumulating into [acc];
    returns the value, the number of digits read and the rest. *)
Fixpoint take_digits (r : Z) (s : string) (acc : Z) (n : nat) : Z * nat * string :=
  match s with
  | String c rest =>
      match radix_digit r c with
      | Some d => take_digits r rest (r * acc + d) (S n)
      | None => (acc, n, s)
      end
  | EmptyString => (acc, n, s)
  end.

(** The exponent after [e]/[E]: an optional sign and at least one digit. *)
Definition parse_exponent (s : string) : option Z :=
  let '(sign, r) := match s with
                    | String "+" r => (1, r)
                    | String "-" r => (-1, r)
                    | _ => (1, s)
                    end in
  match take_digits 10 r 0 0 with
  | (v, S _, EmptyString) => Some (sign * v)
  | _ => None
  end.

(** StrUnsignedDecimalLiteral without [Infinity]: digits, an optional
    fraction, an optional exponent, and at least one digit in all. *)
Definition parse_unsigned_decimal (s : string) : jsnum :=
  let '(ip, ni, r1) := take_digits 10 s 0 0 in
  let '(m, nf, r2) := match r1 with
                      | String "." r => take_digits 10 r ip 0
                      | _ => (ip, 0%nat, r1)
                      end in
  if (ni + nf =? 0)%nat then NaN
  else match r2 with
       | EmptyString => Finite m (- Z.of_nat nf)
       | String c r3 =>
           if Ascii.eqb c "e" || Ascii.eqb c "E"
           then match parse_exponent r3 with
                | Some x => Finite m (x - Z.of_nat nf)
                | None => NaN
                end
           else NaN
       end.

Definition unsigned_numeral (s : string) : jsnum :=
  if String.eqb s "Infinity" then PosInf else parse_unsigned_decimal s.

(** A radix literal ([0x], [0o], [0b]): at least one digit and nothing else. *)
Definition parse_radix (r : Z) (s : string) : jsnum :=
  match take_digits r s 0 0 with
  | (v, S _, EmptyString) => Finite v 0
  | _ => NaN
  end.

Definition negate (x : jsnum) : jsnum :=
  match x with
  | Finite m e => Finite (- m) e
  | PosInf => NegInf
  | NegInf => PosInf
  | NaN => NaN
  end.

Definition string_to_number (s : string) : jsnum :=
  match trim s with
  | EmptyString => Finite 0 0
  | String "0" (String c r) as t =>
      if Ascii.eqb c "x" || Ascii.eqb c "X" then parse_radix 16 r
      else if Ascii.eqb c "o" || Ascii.eqb c "O" then parse_radix 8 r
      else if Ascii.eqb c "b" || Ascii.eqb c "B" then parse_radix 2 r
      else unsigned_numeral t
  | String "-" r => negate (unsigned_numeral r)
  | String "+" r => unsigned_numeral r
  | t => unsigned_numeral t
  end.

(** ECMAScript ToNumber ([ToPrimitive] of a plain object is
    ["[object Object]"], hence NaN). *)
Definition js_to_number (v : jsval) : jsnum :=
  match v with
  | JUndef => NaN
  | JNull => Finite 0 0
  | JBool b => Finite (if b then 1 else 0) 0
  | JNum n => Finite n 0
  | JStr s => string_to_number s
  | JArr _ => string_to_number (js_to_string v)
  | JObj _ => NaN
  end.

(** [v > n] for a number [n]: comparisons with NaN are false. *)
Definition js_gt_num (v : jsval) (n : Z) : bool :=
  match js_to_number v with
  | Finite m e => if 0 <=? e then n <? m * 10 ^ e else n * 10 ^ (- e) <? m
  | PosInf => true
  | NegInf | NaN => false
  end.

(** [String.prototype.includes]: is [needle] a substring of [hay]. *)
Fixpoint str_includes (hay needle : string) : bool :=
  if String.prefix needle hay then true
  else match hay with
       | EmptyString => false
       | String _ rest => str_includes rest needle
       end.

(** [Array.prototype.includes] on a [string[]] (SameValueZero). *)
Definition arr_includes (l : list string) (v : jsval) : bool :=
  match v with
  | JStr s => existsb (String.eqb s) l
  | _ => false
  end.

(** [String.prototype.startsWith]. *)
Definition starts_with (s pre : string) : bool := String.prefix pre s.

(* ------------------------------------------------------------------ *)
(** ** [lib/s3.ts]: [createPresignedUploadUrl] *)

(** One entry of the [Conditions] array handed to [createPresignedPost]. *)
Inductive condition : Type :=
| CContentLengthRange (lo : Z) (hi : jsval)   (* ['content-length-range', lo, hi] *)
| CStartsWith (field prefix : string).        (* ['starts-with', field, prefix] *)

(** The arguments of the [createPresignedPost(s3Client, {...})] call: the
    signing call to the storage backend.  [pc_client] records whether an
    [S3Client] was passed at all. *)
Record presign_call : Type := {
  pc_client : bool;
  pc_bucket : string;
  pc_key : string;
  pc_conditions : list condition;
  pc_fields : list (string * string);
  pc_expires : Z
}.

(** The backend's answer to a signing call: [Some (url, fields)], or [None]
    when the call rejects. *)
Definition presign_backend := presign_call -> option (string * list (string * string)).

(** The call [createPresignedUploadUrl] makes, given the fresh [uuidv4()]
    and [process.env.AWS_S3_BUCKET].  [None]: the function throws before
    reaching the backend ([fileType.startsWith] on a non-string). *)
Definition createPresignedUploadUrl_call (bucket uuid : string) (client : bool)
    (fileType fileName maxFileSize : jsval) : option presign_call :=
  let key := "uploads/" ++ uuid ++ "/" ++ js_to_string fileName in
  let conditions := [CContentLengthRange 0 maxFileSize] in
  match fileType with
  | JStr ft =>
      let conditions :=
        if starts_with ft "audio/"
        then (conditions ++ [CStartsWith "$Content-Type" "audio/"])%list
        else conditions in
      Some {| pc_client := client; pc_bucket := bucket; pc_key := key;
              pc_conditions := conditions;
              pc_fields := [("Content-Type", ft)];
              pc_expires := 600 |}
  | _ => None
  end.

(** The value [{ url, fields, key }] returned to the handler. *)
Definition presigned_json (url : string) (fields : list (string * string)) (key : string) : jsval :=
  JObj [("url", JStr url);
        ("fields", JObj (map (fun '(k, v) => (k, JStr v)) fields));
        ("key", JStr key)].

(* ------------------------------------------------------------------ *)
(** ** The upload endpoint *)

Inductive resp_body : Type :=
| RText (s : string)
| RJson (v : jsval).

Record response : Type := { status : Z; body : resp_body }.

Definition text_resp (st : Z) (s : string) : response := {| status := st; body := RText s |}.

(** [allowedFileTypes: string[] | '*'] *)
Inductive allowed_types : Type :=
| AnyType                    (* the string '*' *)
| Types (l : list string).

Record upload_config : Type := {
  allowedFileTypes : allowed_types;
  maxFileSize : Z
}.

(** The body as [request.json()] delivers it: [None] when the body is not
    valid JSON and the promise rejects. *)
Definition request_body := option jsval.

(** [const { fileName, fileType, fileSize } = body] *)
Definition destructure (v : jsval) : option (jsval * jsval * jsval) :=
  match js_get v "fileName", js_get v "fileType", js_get v "fileSize" with
  | Some a, Some b, Some c => Some (a, b, c)
  | _, _, _ => None
  end.

(** Signing step shared by both handlers: build the call, and if it is made,
    answer with the backend's credential or 500.  Without a client,
    [createPresignedPost(undefined, ...)] rejects as soon as it reads the
    client's configuration, whatever the backend would have answered. *)
Definition sign_and_respond (bucket uuid : string) (backend : presign_backend)
    (client : bool) (fileName fileType maxFileSize : jsval) : list presign_call * response :=
  match createPresignedUploadUrl_call bucket uuid client fileType fileName maxFileSize with
  | None => ([], text_resp 500 "Internal Server Error")
  | Some c =>
      if negb (pc_client c) then ([c], text_resp 500 "Internal Server Error")
      else match backend c with
           | Some (url, fields) => ([c], {| status := 200; body := RJson (presigned_json url fields (pc_key c)) |})
           | None => ([c], text_resp 500 "Internal Server Error")
           end
  end.

(** [app/api/upload/route.ts], [handleUpload].  Returns the signing calls
    made and the response.  [s3Client] records whether [config.s3Client] is
    set.  [config.allowedFileTypes.includes(fileType)] is
    [Array.prototype.includes] on a list and [String.prototype.includes]
    on the string ['*']. *)
Definition route_includes (a : allowed_types) (fileType : jsval) : bool :=
  match a with
  | AnyType => str_includes "*" (js_to_string fileType)
  | Types l => arr_includes l fileType
  end.

Definition handleUpload_route (bucket uuid : string) (backend : presign_backend)
    (config : upload_config) (s3Client : bool) (req : request_body)
    : list presign_call * response :=
  match req with
  | None => ([], text_resp 500 "Internal Server Error")          (* json() throws: outer catch *)
  | Some b =>
      match destructure b with
      | None => ([], text_resp 500 "Internal Server Error")
      | Some (fileName, fileType, fileSize) =>
          if negb (js_truthy fileName) || negb (js_truthy fileType) || negb (js_truthy fileSize)
          then ([], text_resp 400 "Missing required fields")
          else if negb (route_includes (allowedFileTypes config) fileType)
          then ([], text_resp 400 "File type not allowed")
          else if js_gt_num fileSize (maxFileSize config)
          then ([], text_resp 400 "File too large")
          else if negb s3Client
          then ([], text_resp 400 "Missing s3 client")
          else sign_and_respond bucket uuid backend true fileName fileType (JNum (maxFileSize config))
      end
  end.

(** The sibling upload handler ([src/unnamed/part_002]): [request.json()]
    has its own [try], the type check is skipped for ['*'], and it calls
    [createPresignedUploadUrl({ fileName, fileType })] of [lib/s3.ts], so
    [maxFileSize] and [s3Client] are [undefined] there. *)
Definition presigned_includes (a : allowed_types) (fileType : jsval) : bool :=
  match a with
  | AnyType => true
  | Types l => arr_includes l fileType
  end.

Definition handleUpload_presigned (bucket uuid : string) (backend : presign_backend)
    (config : upload_config) (req : request_body) : list presign_call * response :=
  match req with
  | None => ([], text_resp 400 "Invalid JSON in request body")
  | Some b =>
      match destructure b with
      | None => ([], text_resp 500 "Internal Server Error")
      | Some (fileName, fileType, fileSize) =>
          if negb (js_truthy fileName) || negb (js_truthy fileType) || negb (js_truthy fileSize)
          then ([], text_resp 400 "Missing required fields")
          else if negb (presigned_includes (allowedFileTypes config) fileType)
          then ([], text_resp 400 "File type not allowed")
          else if js_gt_num fileSize (maxFileSize config)
          then ([], text_resp 400 "File too large")
          else sign_and_respond bucket uuid backend false fileName fileType JUndef
      end
  end.

(* ------------------------------------------------------------------ *)
(** ** [lib/s3.ts]: [getFileByS3Key], and the download endpoint *)

(** [buffer.toString('base64')] *)
Definition b64_char (n : Z) : ascii :=
  let n := Z.to_nat n in
  if (n <? 26)%nat then ascii_of_nat (65 + n)
  else if (n <? 52)%nat then ascii_of_nat (97 + n - 26)
  else if (n <? 62)%nat then ascii_of_nat (48 + n - 52)
  else if (n =? 62)%nat then "+"%char else "/"%char.

Fixpoint base64 (bytes : list Z) : string :=
  match bytes with
  | [] => ""
  | [a] =>
      String (b64_char (a / 4)) (String (b64_char ((a mod 4) * 16)) "==")
  | [a; b] =>
      String (b64_char (a / 4))
        (String (b64_char ((a mod 4) * 16 + b / 16))
           (String (b64_char ((b mod 16) * 4)) "="))
  | a :: b :: c :: rest =>
      String (b64_char (a / 4))
        (String (b64_char ((a mod 4) * 16 + b / 16))
           (String (b64_char ((b mod 16) * 4 + c / 64))
              (String (b64_char (c mod 64)) (base64 rest))))
  end.

(** The outcome of [fetch(fileUrl)] followed by [response.arrayBuffer()]. *)
Inductive fetch_outcome : Type :=
| FetchRejected (msg : string)                       (* transport failure *)
| FetchResponse (ok : bool) (statusText : string)
                (contentType : option string)        (* the content-type header *)
                (bytes : option (list Z)).           (* None: reading the body rejects *)

(** The read side of the storage backend: [getSignedUrl] (inl: the error
    message it rejects with), [fetch], and the message [arrayBuffer()]
    rejects with when the body of a URL cannot be read. *)
Record read_backend : Type := {
  sign_read : string -> bool -> string + string;     (* key, client given *)
  fetch_url : string -> fetch_outcome;
  body_read_error : string -> string
}.

(** What [getFileByS3Key] returns: [buffer] is [Buffer.from(arrayBuffer)]. *)
Record file_data : Type := { buffer : list Z; size : Z; contentType : option string }.

Definition getFileByS3Key (rb : read_backend) (s3Key : jsval) (client : bool) : string + file_data :=
  if negb (js_truthy s3Key) then inl "S3 key is required"
  else match sign_read rb (js_to_string s3Key) client with
       | inl msg => inl msg
       | inr fileUrl =>
           match fetch_url rb fileUrl with
           | FetchRejected msg => inl msg
           | FetchResponse false statusText _ _ =>
               inl ("Failed to fetch file from S3: " ++ statusText)
           | FetchResponse true _ ct bytes =>
               (* headers.get('content-type') || undefined *)
               let ct := match ct with Some "" | None => None | Some c => Some c end in
               match bytes with
               | None => inl (body_read_error rb fileUrl)
               | Some bs => inr {| buffer := bs; size := Z.of_nat (List.length bs); contentType := ct |}
               end
           end
       end.

(** [if (!buffer)]: [Buffer.from(...)] is an object, and every object is
    truthy in JavaScript, whatever its length. *)
Definition buffer_truthy (b : list Z) : bool := js_truthy (JObj []).

(** [options?: { onDownload?, s3Client? }]; [onDownload] is [Some h] with
    [h key = true] when the hook's promise resolves.  When it rejects, the
    [catch] answers with [onDownload_error key]: the rejection's [message]
    for an [Error], ['Unknown error'] otherwise. *)
Record download_options : Type := {
  onDownload : option (string -> bool);
  onDownload_error : string -> string;
  dl_s3Client : bool
}.

Definition json_error (st : Z) (msg : string) : response :=
  {| status := st; body := RJson (JObj [("error", JStr msg)]) |}.

(** The [TypeError] Node.js raises for [const { s3Key } = body] when the
    body is [null] (or [undefined]). *)
Definition destructure_error (v : jsval) : string :=
  "Cannot destructure property 's3Key' of 'body' as it is "
  ++ match v with JNull => "null" | _ => "undefined" end ++ ".".

(** The message of the [SyntaxError] [req.json()] rejects with names the
    offending token of the body text, which [request_body] does not keep;
    this fixed text stands for it. *)
Definition json_syntax_error : string := "Unexpected token in JSON".

(** [app/api/download/route.ts], [handleDownload]. *)
Definition handleDownload (rb : read_backend) (options : option download_options)
    (req : request_body) : response :=
  match req with
  | None => json_error 500 json_syntax_error                (* req.json() rejects *)
  | Some b =>
      match js_get b "s3Key", js_get b "metadata" with
      | Some s3Key, Some md =>
          let metadata := match md with JUndef => JObj [] | _ => md end in
          if negb (js_truthy s3Key) then json_error 400 "Missing S3 key"
          else match options with
               | Some o =>
                   if negb (dl_s3Client o) then json_error 400 "Missing s3 client"
                   else match getFileByS3Key rb s3Key true with
                        | inl msg => json_error 500 msg
                        | inr fd =>
                            if negb (buffer_truthy (buffer fd)) then json_error 404 "File not found"
                            else if match onDownload o with
                                    | Some h => negb (h (js_to_string s3Key))
                                    | None => false
                                    end
                            then json_error 500 (onDownload_error o (js_to_string s3Key))
                            else {| status := 200;
                                    body := RJson (JObj
                                      [("buffer", JStr (base64 (buffer fd)));
                                       ("size", JNum (size fd));
                                       ("contentType", match contentType fd with
                                                       | Some c => JStr c
                                                       | None => JUndef end);
                                       ("metadata", metadata)]) |}
                        end
               | None => json_error 400 "Missing s3 client"
               end
      | _, _ => json_error 500 (destructure_error b)         (* body is null *)
      end
  end.

(* ------------------------------------------------------------------ *)
(** ** The client hook [useFileUploader] ([src/unnamed/part_000]) *)

(** [Math.round(x / (1024 * 1024))] for an integer [x]: the division by a
    power of two is exact in binary floating point and [Math.round] is
    [floor(y + 0.5)]. *)
Definition round_mb (x : Z) : Z := (2 * x + 1048576) / 2097152.

Fixpoint join_comma (l : list string) : string :=
  match l with
  | [] => ""
  | [x] => x
  | x :: rest => x ++ ", " ++ join_comma rest
  end.

(** The two checks [uploadFile] runs before any network call: [None] when
    they pass, [Some msg] for the [Error(msg)] they throw. *)
Definition validate_client (allowed : allowed_types) (maxSize : Z)
    (fileType : string) (fileSize : Z) : option string :=
  match allowed with
  | Types l =>
      if negb (existsb (String.eqb fileType) l)
      then Some ("File type not supported. Allowed types: " ++ join_comma l)
      else if maxSize <? fileSize
      then Some ("File too large (max " ++ Z_to_dec (round_mb maxSize) ++ "MB)")
      else None
  | AnyType =>
      if maxSize <? fileSize
      then Some ("File too large (max " ++ Z_to_dec (round_mb maxSize) ++ "MB)")
      else None
  end.

(** The events that settle the [XMLHttpRequest] of [uploadToS3]: ['load']
    with [xhr.status], or ['error'] (transport failure).  No timeout is set
    and [abort()] is never called, so no other settling event occurs. *)
Inductive xhr_event : Type :=
| XhrLoad (st : Z)
| XhrError.

Inductive settle : Type :=
| Resolved
| Rejected (msg : string).

Definition uploadToS3_settle (e : xhr_event) : settle :=
  match e with
  | XhrLoad st => if st =? 204 then Resolved else Rejected "Upload failed"
  | XhrError => Rejected "Upload failed"
  end.

(** The hook as a state machine.  [isUploading] is the React state as last
    set, [render_isUploading] its value in the latest committed render, and
    [uploadAttempted] the ref.  The caller holds the [uploadFile] of the
    latest render, whose closure reads [render_isUploading]: calls made
    before React renders again all see the same value.  [Render] is React
    committing a render, which it may do between any two events.  The
    [useEffect] path ([performUpload]) is not modelled: its guard needs
    [uploadAttempted.current] true while the render's [isUploading] is
    false; every code path sets and clears the two together, so that only
    happens when [uploadFile] runs after a render and before that render's
    deferred effect. *)
Record file : Type := { name : string; ftype : string; fsize : Z }.

(** A network step an upload attempt is suspended on. *)
Inductive pending_op : Type :=
| AwaitCredential (id : nat)                  (* await getUploaddUrl(file) *)
| AwaitTransfer (id : nat) (key : string).    (* await uploadToS3(file, uploadPost) *)

Definition op_id (o : pending_op) : nat :=
  match o with AwaitCredential i | AwaitTransfer i _ => i end.

Record hook_state : Type := {
  isUploading : bool;
  render_isUploading : bool;
  uploadAttempted : bool;
  next_id : nat;                    (* attempt counter, one per started call *)
  pending : list pending_op
}.

Definition initial_state : hook_state :=
  {| isUploading := false; render_isUploading := false; uploadAttempted := false;
     next_id := 0; pending := [] |}.

(** What the hook does to the outside world. *)
Inductive effect : Type :=
| NetCredentialRequest (id : nat) (f : file)                    (* POST to the upload endpoint *)
| NetTransfer (id : nat) (url : string) (fields : list (string * string))  (* xhr.send *)
| OnUploadComplete (id : nat) (key : string)
| OnUploadError (id : nat) (msg : string).

Inductive event : Type :=
| UploadFile (f : file)                                   (* caller invokes uploadFile *)
| CredentialOk (id : nat) (url : string) (fields : list (string * string)) (key : string)
| CredentialFailed (id : nat) (msg : string)               (* getUploaddUrl rejects *)
| XhrSettled (id : nat) (e : xhr_event)
| Reset                                                   (* caller invokes reset *)
| Render.                                                 (* React commits a render *)

Definition remove_op (id : nat) (ps : list pending_op) : list pending_op :=
  filter (fun o => negb (Nat.eqb (op_id o) id)) ps.

Fixpoint awaiting_credential (id : nat) (ps : list pending_op) : bool :=
  match ps with
  | [] => false
  | AwaitCredential i :: rest => Nat.eqb i id || awaiting_credential id rest
  | _ :: rest => awaiting_credential id rest
  end.

Fixpoint awaiting_transfer (id : nat) (ps : list pending_op) : option string :=
  match ps with
  | [] => None
  | AwaitTransfer i k :: rest => if Nat.eqb i id then Some k else awaiting_transfer id rest
  | _ :: rest => awaiting_transfer id rest
  end.

Definition set_flags (s : hook_state) (up att : bool) : hook_state :=
  {| isUploading := up; render_isUploading := render_isUploading s; uploadAttempted := att;
     next_id := next_id s; pending := pending s |}.

(** [finally { setIsUploading(false); uploadAttempted.current = false; }]
    after the attempt [id] leaves its last await. *)
Definition finish (s : hook_state) (id : nat) : hook_state :=
  {| isUploading := false; render_isUploading := render_isUploading s;
     uploadAttempted := false; next_id := next_id s;
     pending := remove_op id (pending s) |}.

Section Hook.
(** The hook's props [allowedFileTypes] and [maxFileSize]. *)
Variable config : upload_config.
(** What the caller's [onUploadComplete] does with a key: [None], it
    returns; [Some msg], it throws, and since the call sits inside the
    [try], the [catch] passes an error with message [msg] to
    [onUploadError] ([msg] is 'Upload failed' when the thrown value is not
    an [Error]). *)
Variable onUploadComplete_throws : string -> option string.

Definition step (s : hook_state) (ev : event) : hook_state * list effect :=
  match ev with
  | UploadFile f =>
      if render_isUploading s then (s, [])                (* if (isUploading) return; *)
      else
        let id := next_id s in
        let s1 := {| isUploading := true; render_isUploading := render_isUploading s;
                     uploadAttempted := true; next_id := S id; pending := pending s |} in
        match validate_client (allowedFileTypes config) (maxFileSize config)
                (ftype f) (fsize f) with
        | Some msg => (set_flags s1 false false, [OnUploadError id msg])
        | None =>
            ({| isUploading := true; render_isUploading := render_isUploading s;
                uploadAttempted := true; next_id := S id;
                pending := (pending s ++ [AwaitCredential id])%list |},
             [NetCredentialRequest id f])
        end
  | CredentialOk id url fields key =>
      if awaiting_credential id (pending s)
      then ({| isUploading := isUploading s; render_isUploading := render_isUploading s;
               uploadAttempted := uploadAttempted s; next_id := next_id s;
               pending := (remove_op id (pending s) ++ [AwaitTransfer id key])%list |},
            [NetTransfer id url fields])
      else (s, [])
  | CredentialFailed id msg =>
      if awaiting_credential id (pending s)
      then (finish s id, [OnUploadError id msg])
      else (s, [])
  | XhrSettled id e =>
      match awaiting_transfer id (pending s) with
      | Some key =>
          match uploadToS3_settle e with
          | Resolved =>
              (finish s id,
               OnUploadComplete id key
                 :: match onUploadComplete_throws key with
                    | Some msg => [OnUploadError id msg]
                    | None => []
                    end)
          | Rejected msg => (finish s id, [OnUploadError id msg])
          end
      | None => (s, [])
      end
  | Reset => (set_flags s false false, [])
  | Render =>
      ({| isUploading := isUploading s; render_isUploading := isUploading s;
          uploadAttempted := uploadAttempted s; next_id := next_id s;
          pending := pending s |}, [])
  end.

(** Run a sequence of events, collecting the effects in order. *)
Fixpoint run (s : hook_state) (evs : list event) : hook_state * list effect :=
  match evs with
  | [] => (s, [])
  | ev :: rest =>
      let '(s1, out1) := step s ev in
      let '(s2, out2) := run s1 rest in
      (s2, (out1 ++ out2)%list)
  end.
End Hook.

(* ------------------------------------------------------------------ *)
(** ** Default handlers and the hook's request *)

(** [lib/constants.ts] *)
Definition ALLOWED_FILE_TYPES : list string :=
  ["audio/mpeg"; "audio/mp4"; "audio/wav"; "audio/x-wav"; "audio/ogg"; "audio/webm"; "audio/aac"].

Definition MAX_FILE_SIZE : Z := 5 * 1024 * 1024.

(** [app/api/upload/route.ts], [POST]: [handleUpload] with the project
    constants and no [s3Client]. *)
Definition POST_upload (bucket uuid : string) (backend : presign_backend) (req : request_body)
    : list presign_call * response :=
  handleUpload_route bucket uuid backend
    {| allowedFileTypes := Types ALLOWED_FILE_TYPES; maxFileSize := MAX_FILE_SIZE |} false req.

(** [app/api/download/route.ts], [POST]: [handleDownload(req)] without options. *)
Definition POST_download (rb : read_backend) (req : request_body) : response :=
  handleDownload rb None req.

(** The body [getUploaddUrl] sends, [JSON.stringify({ fileName: file.name,
    fileType: file.type, fileSize: file.size })], as [request.json()] reads
    it back on the server. *)
Definition hook_request_body (f : file) : jsval :=
  JObj [("fileName", JStr (name f)); ("fileType", JStr (ftype f)); ("fileSize", JNum (fsize f))].

(** The [config] prop of the hook, [{ apiBaseUrl?, endpoints?: { uploadUrl? } }]:
    [None] when the property is absent, [Some v] when it is present (an own
    property holding [undefined] is present and still spreads). *)
Record hook_user_config : Type := {
  uc_apiBaseUrl : option jsval;
  uc_endpoints : option jsval
}.

(** [`${finalConfig.apiBaseUrl}${finalConfig.endpoints.uploadUrl}`] after the
    merge [{ ...DEFAULT_CONFIG, ...config, endpoints: { ...DEFAULT_CONFIG.endpoints,
    ...(config.endpoints || {}) } }], with [env] the value of
    [process.env.NEXT_PUBLIC_API_URL].  Spreading a value that is not a
    plain object adds no [uploadUrl]. *)
Definition upload_url (env : option string) (uc : hook_user_config) : string :=
  let default_base := match env with Some e => e | None => "" end in
  let base := match uc_apiBaseUrl uc with
              | Some v => js_to_string v
              | None => default_base
              end in
  let endpoint := match uc_endpoints uc with
                  | Some (JObj fs) =>
                      match assoc_last "uploadUrl" fs with
                      | Some v => js_to_string v
                      | None => "/api/upload"
                      end
                  | _ => "/api/upload"
                  end in
  base ++ endpoint.

(** Counting the hook's effects that concern one attempt. *)
(** The four kinds of effect an attempt can have. *)
Inductive effect_kind : Type :=
| KCredential
| KTransfer
| KComplete
| KError.

(** Is [e] an effect of kind [k] of the attempt [id]. *)
Definition effect_is (k : effect_kind) (id : nat) (e : effect) : bool :=
  match k, e with
  | KCredential, NetCredentialRequest i _
  | KTransfer, NetTransfer i _ _
  | KComplete, OnUploadComplete i _
  | KError, OnUploadError i _ => Nat.eqb i id
  | _, _ => false
  end.

Definition count_eff (p : effect -> bool) (l : list effect) : nat :=
  List.length (filter p l).

Definition effect_id (e : effect) : nat :=
  match e with
  | NetCredentialRequest i _ | NetTransfer i _ _ | OnUploadComplete i _ | OnUploadError i _ => i
  end.

(** The invariant of the hook over the effects [log] emitted so far, for
    every attempt [id]: each kind of effect occurred at most once; an
    attempt not started yet has no effect and no pending operation; an
    attempt awaiting its credential has only requested it; an attempt
    awaiting its transfer has had no callback. *)
Definition attempt_ledger (s : hook_state) (log : list effect) : Prop :=
  forall id : nat,
    (forall k, (count_eff (effect_is k id) log <= 1)%nat)
    /\ ((next_id s <= id)%nat ->
        (forall k, count_eff (effect_is k id) log = 0%nat)
        /\ forall o, In o (pending s) -> op_id o <> id)
    /\ (In (AwaitCredential id) (pending s) ->
        forall k, k <> KCredential -> count_eff (effect_is k id) log = 0%nat)
    /\ (forall key, In (AwaitTransfer id key) (pending s) ->
        count_eff (effect_is KComplete id) log = 0%nat
        /\ count_eff (effect_is KError id) log = 0%nat).



(* ------------------------------------------------------------------ *)
(** ** Concrete inputs used below *)

(** A signing backend that always answers. *)
Definition demo_backend : presign_backend := fun c => Some ("https://bucket.s3.amazonaws.com", pc_fields c).

(** The body [{"fileName":"a.mp3","fileType":"audio/mpeg","fileSize":1000}]. *)
Definition demo_upload_body : jsval :=
  JObj [("fileName", JStr "a.mp3"); ("fileType", JStr "audio/mpeg"); ("fileSize", JNum 1000)].

Definition demo_file : file := {| name := "a.mp3"; ftype := "audio/mpeg"; fsize := 1000 |}.

Definition demo_hook_config : upload_config :=
  {| allowedFileTypes := AnyType; maxFileSize := 10 * 1024 * 1024 |}.

(** An [onUploadComplete] that returns normally. *)
Definition callback_returns : string -> option string := fun _ => None.

(** A read backend whose object exists and holds three bytes. *)
Definition demo_read_backend : read_backend :=
  {| sign_read := fun k _ => inr ("https://bucket.s3.amazonaws.com/" ++ k);
     fetch_url := fun _ => FetchResponse true "OK" (Some "audio/mpeg") (Some [77; 97; 110]);
     body_read_error := fun _ => "terminated" |}.

(* ------------------------------------------------------------------ *)
(** ** Helper lemmas *)

Lemma existsb_eqb_notin (l : list string) (s : string) :
  ~ In s l -> existsb (String.eqb s) l = false.
Proof.
  induction l as [|x l IH]; intros Hn; simpl; [reflexivity|].
  destruct (String.eqb_spec s x) as [->|Hne].
  - exfalso; apply Hn; left; reflexivity.
  - simpl; apply IH; intros Hi; apply Hn; right; exact Hi.
Qed.

Lemma existsb_eqb_in (l : list string) (s : string) :
  In s l -> existsb (String.eqb s) l = true.
Proof.
  intros Hi; apply existsb_exists; exists s; split; [exact Hi|].
  apply String.eqb_refl.
Qed.

Lemma js_gt_num_JNum (m n : Z) : js_gt_num (JNum m) n = (n <? m).
Proof. unfold js_gt_num; simpl; rewrite Z.mul_1_r; reflexivity. Qed.

(* ------------------------------------------------------------------ *)
(** ** Claims *)

(** C1 (code_bug).  Under the wildcard policy ['*'], [route.ts] still runs
    [config.allowedFileTypes.includes(fileType)], which on the string ['*']
    is a substring test: the request for ["audio/mpeg"] is refused with
    "File type not allowed".  The sibling handler skips the check for ['*']
    and never answers "File type not allowed" under that policy, for any
    request and any limit. *)
Theorem C1_route_wildcard_rejects_type :
  forall (bucket uuid : string) (backend : presign_backend),
    (forall client : bool,
       handleUpload_route bucket uuid backend
         {| allowedFileTypes := AnyType; maxFileSize := 5 * 1024 * 1024 |} client
         (Some demo_upload_body)
       = ([], text_resp 400 "File type not allowed"))
    /\ (forall (M : Z) (req : request_body),
          snd (handleUpload_presigned bucket uuid backend
                 {| allowedFileTypes := AnyType; maxFileSize := M |} req)
          <> text_resp 400 "File type not allowed").
Proof.
  intros bucket uuid backend; split; [intros; reflexivity|].
  intros M [b|]; unfold handleUpload_presigned; [|discriminate].
  destruct (destructure b) as [[[fn ft] fs]|]; [|discriminate].
  simpl presigned_includes; simpl negb.
  repeat match goal with
         | |- context [if ?c then _ else _] => destruct c
         end; try discriminate.
  unfold sign_and_respond.
  destruct (createPresignedUploadUrl_call bucket uuid false ft fn JUndef) as [c|]; [|discriminate].
  destruct (negb (pc_client c)); [discriminate|].
  destruct (backend c) as [[url fields]|]; discriminate.
Qed.

(** C3 (code_bug).  A body that is not valid JSON makes [request.json()]
    reject; [route.ts] has no guard of its own around it and answers 500
    from its outer [catch], where the sibling handler answers 400
    "Invalid JSON in request body". *)
Theorem C3_route_malformed_json_is_500 :
  forall (bucket uuid : string) (backend : presign_backend)
         (config : upload_config) (client : bool),
    handleUpload_route bucket uuid backend config client None
      = ([], text_resp 500 "Internal Server Error")
    /\ handleUpload_presigned bucket uuid backend config None
      = ([], text_resp 400 "Invalid JSON in request body").
Proof. intros; split; reflexivity. Qed.

(** C5.  The conditions of the signing call are the size range
    [[0, maxFileSize]] and, exactly when the declared type starts with
    ["audio/"], the Content-Type prefix condition; nothing else. *)
Theorem C5_presign_conditions :
  forall (bucket uuid : string) (client : bool) (fileName : jsval)
         (fileType : string) (maxSize : Z),
    exists c,
      createPresignedUploadUrl_call bucket uuid client (JStr fileType) fileName (JNum maxSize)
        = Some c
      /\ (forall cond, In cond (pc_conditions c) <->
            cond = CContentLengthRange 0 (JNum maxSize)
            \/ (cond = CStartsWith "$Content-Type" "audio/"
                /\ starts_with fileType "audio/" = true)).
Proof.
  intros bucket uuid client fileName fileType maxSize.
  eexists; split; [reflexivity|].
  intros cond; simpl.
  destruct (starts_with fileType "audio/"); simpl; split.
  - intros [H|[H|[]]]; [left; congruence | right; split; congruence].
  - intros [H|[H _]]; [left; congruence | right; left; congruence].
  - intros [H|[]]; left; congruence.
  - intros [H|[_ H]]; [left; congruence | discriminate H].
Qed.

(** C7.  The promise of [uploadToS3] resolves exactly on a ['load'] with
    status 204; every other settling event rejects it with
    [Error('Upload failed')]. *)
Theorem C7_transfer_resolves_iff_204 :
  forall e : xhr_event,
    (uploadToS3_settle e = Resolved <-> e = XhrLoad 204)
    /\ (uploadToS3_settle e = Resolved \/ uploadToS3_settle e = Rejected "Upload failed").
Proof.
  intros [st|]; simpl.
  - destruct (Z.eqb_spec st 204) as [->|Hne].
    + split; [split; reflexivity | left; reflexivity].
    + split; [split; [discriminate | intros H; inversion H; contradiction] | right; reflexivity].
  - split; [split; discriminate | right; reflexivity].
Qed.

(** C10.  Both upload handlers treat every falsy field as missing: a size
    of 0 or an empty name or type gets 400 "Missing required fields" before
    any other check, although 0 passes the size check of every policy with a
    non-negative limit. *)
Theorem C10_falsy_fields_missing :
  forall (bucket uuid : string) (backend : presign_backend)
         (config : upload_config) (client : bool)
         (b fileName fileType fileSize : jsval),
    destructure b = Some (fileName, fileType, fileSize) ->
    (fileSize = JNum 0 \/ fileName = JStr "" \/ fileType = JStr "") ->
    handleUpload_route bucket uuid backend config client (Some b)
      = ([], text_resp 400 "Missing required fields")
    /\ handleUpload_presigned bucket uuid backend config (Some b)
      = ([], text_resp 400 "Missing required fields")
    /\ (0 <= maxFileSize config -> js_gt_num (JNum 0) (maxFileSize config) = false).
Proof.
  intros bucket uuid backend config client b fn ft fs Hd Hf.
  unfold handleUpload_route, handleUpload_presigned; rewrite Hd.
  assert (Hm : negb (js_truthy fn) || negb (js_truthy ft) || negb (js_truthy fs) = true).
  { destruct Hf as [ -> | [ -> | -> ]]; simpl;
      rewrite ?orb_true_r; reflexivity. }
  rewrite Hm; split; [reflexivity|split; [reflexivity|]].
  intros H0; rewrite js_gt_num_JNum; apply Z.ltb_ge; lia.
Qed.

Lemma C10_falsy_fields_missing_witness :
  destructure (JObj [("fileName", JStr "a.mp3"); ("fileType", JStr "audio/mpeg"); ("fileSize", JNum 0)])
    = Some (JStr "a.mp3", JStr "audio/mpeg", JNum 0)
  /\ handleUpload_route "bucket" "uuid" demo_backend demo_hook_config true
       (Some (JObj [("fileName", JStr "a.mp3"); ("fileType", JStr "audio/mpeg"); ("fileSize", JNum 0)]))
     = ([], text_resp 400 "Missing required fields").
Proof.
  split; [reflexivity|].
  apply (C10_falsy_fields_missing "bucket" "uuid" demo_backend demo_hook_config true
           _ (JStr "a.mp3") (JStr "audio/mpeg") (JNum 0)); [reflexivity | left; reflexivity].
Defined.

(** C6.  A request with a type outside a non-wildcard list, or a size above
    the limit, gets 400 from both upload handlers, and the signing call is
    never made (the list of signing calls is empty). *)
Theorem C6_rejects_before_signing :
  forall (bucket uuid : string) (backend : presign_backend)
         (config : upload_config) (client : bool)
         (b : jsval) (fileName fileType : string) (fileSize : Z),
    destructure b = Some (JStr fileName, JStr fileType, JNum fileSize) ->
    ((exists l, allowedFileTypes config = Types l /\ ~ In fileType l)
     \/ maxFileSize config < fileSize) ->
    fst (handleUpload_route bucket uuid backend config client (Some b)) = []
    /\ status (snd (handleUpload_route bucket uuid backend config client (Some b))) = 400
    /\ fst (handleUpload_presigned bucket uuid backend config (Some b)) = []
    /\ status (snd (handleUpload_presigned bucket uuid backend config (Some b))) = 400.
Proof.
  intros bucket uuid backend config client b fn ft fs Hd Hbad.
  unfold handleUpload_route, handleUpload_presigned; rewrite Hd.
  destruct (negb (js_truthy (JStr fn)) || negb (js_truthy (JStr ft)) || negb (js_truthy (JNum fs)));
    [repeat split; reflexivity|].
  assert (Hty : forall inc : allowed_types -> jsval -> bool,
             (forall l, inc (Types l) (JStr ft) = existsb (String.eqb ft) l) ->
             inc (allowedFileTypes config) (JStr ft) = false
             \/ js_gt_num (JNum fs) (maxFileSize config) = true).
  { intros inc Hinc; destruct Hbad as [[l [Hl Hn]]|Hgt].
    - left; rewrite Hl, Hinc; apply existsb_eqb_notin; exact Hn.
    - right; rewrite js_gt_num_JNum; apply Z.ltb_lt; exact Hgt. }
  destruct (Hty route_includes (fun l => eq_refl)) as [Hr|Hr];
    destruct (Hty presigned_includes (fun l => eq_refl)) as [Hp|Hp];
    rewrite ?Hr, ?Hp; simpl;
    repeat match goal with
           | |- context [if ?c then _ else _] => destruct c
           end;
    repeat split; reflexivity.
Qed.

Lemma C6_rejects_before_signing_witness :
  destructure demo_upload_body = Some (JStr "a.mp3", JStr "audio/mpeg", JNum 1000)
  /\ fst (handleUpload_route "bucket" "uuid" demo_backend
            {| allowedFileTypes := Types ["image/png"]; maxFileSize := 5242880 |} true
            (Some demo_upload_body)) = [].
Proof.
  split; [reflexivity|].
  apply (C6_rejects_before_signing "bucket" "uuid" demo_backend
           {| allowedFileTypes := Types ["image/png"]; maxFileSize := 5242880 |} true
           demo_upload_body "a.mp3" "audio/mpeg" 1000); [reflexivity|].
  left; exists ["image/png"]; split; [reflexivity|].
  simpl; intros [H|[]]; discriminate H.
Defined.

(** C4, as stated: with a limit of 1.5 MiB the size rejection reads
    "max 2MB" ([Math.round]), while the floored limit is 1; and a file over
    the limit whose type is not in the list is rejected for its type, not
    for its size. *)
Lemma C4_message_rounds_not_floors :
  validate_client (Types ["audio/mpeg"]) 1572864 "audio/mpeg" 2000000
    = Some "File too large (max 2MB)"
  /\ 1572864 / 1048576 = 1
  /\ validate_client (Types ["audio/mpeg"]) 1572864 "image/png" 2000000
    = Some "File type not supported. Allowed types: audio/mpeg".
Proof. repeat split; reflexivity. Qed.

(** C4, amended.  Let the size exceed the limit [M].  When the type check
    passes, [uploadFile] throws "File too large (max N MB)" with [N] the
    nearest integer to [M / 1048576], halves rounded up.  When the type is
    not in the allowed list, it throws the type message instead. *)
Theorem C4_too_large_message :
  forall (allowed : allowed_types) (M : Z) (fileType : string) (fileSize : Z),
    M < fileSize ->
    ((allowed = AnyType \/ exists l, allowed = Types l /\ In fileType l) ->
     validate_client allowed M fileType fileSize
       = Some ("File too large (max " ++ Z_to_dec (round_mb M) ++ "MB)"))
    /\ (forall l, allowed = Types l -> ~ In fileType l ->
        validate_client allowed M fileType fileSize
          = Some ("File type not supported. Allowed types: " ++ join_comma l))
    /\ 2 * 1048576 * round_mb M <= 2 * M + 1048576 < 2 * 1048576 * (round_mb M + 1).
Proof.
  intros allowed M ft fs Hgt.
  assert (Hlt : (M <? fs) = true) by (apply Z.ltb_lt; exact Hgt).
  split; [|split].
  - intros Hty; destruct Hty as [->|[l [-> Hin]]]; simpl.
    + rewrite Hlt; reflexivity.
    + rewrite (existsb_eqb_in l ft Hin); simpl; rewrite Hlt; reflexivity.
  - intros l -> Hnin; simpl.
    destruct (existsb (String.eqb ft) l) eqn:He; [|reflexivity].
    apply existsb_exists in He; destruct He as [x [Hx Heq]].
    apply String.eqb_eq in Heq; subst x; contradiction.
  - unfold round_mb.
    pose proof (Z.mul_div_le (2 * M + 1048576) 2097152 ltac:(lia)).
    pose proof (Z.mod_pos_bound (2 * M + 1048576) 2097152 ltac:(lia)).
    pose proof (Z.div_mod (2 * M + 1048576) 2097152 ltac:(lia)).
    lia.
Qed.

Lemma C4_too_large_message_witness :
  validate_client (Types ["audio/mpeg"]) 1572864 "audio/mpeg" 2000000
    = Some ("File too large (max " ++ Z_to_dec (round_mb 1572864) ++ "MB)")
  /\ validate_client (Types ["audio/mpeg"]) 1572864 "image/png" 2000000
    = Some ("File type not supported. Allowed types: " ++ join_comma ["audio/mpeg"]).
Proof.
  destruct (C4_too_large_message (Types ["audio/mpeg"]) 1572864 "image/png" 2000000
              ltac:(lia)) as [_ [Hty _]].
  destruct (C4_too_large_message (Types ["audio/mpeg"]) 1572864 "audio/mpeg" 2000000
              ltac:(lia)) as [Hsz _].
  split.
  - apply Hsz; right; exists ["audio/mpeg"]; split; [reflexivity | left; reflexivity].
  - apply (Hty ["audio/mpeg"] eq_refl); simpl; intros [H|[]]; discriminate H.
Defined.

(** Lookups in the pending list find an operation of the requested id. *)
Lemma awaiting_credential_in (id : nat) (ps : list pending_op) :
  awaiting_credential id ps = true -> In (AwaitCredential id) ps.
Proof.
  induction ps as [|o ps IH]; simpl; [discriminate|].
  destruct o as [i|i k].
  - intros H; apply orb_true_iff in H; destruct H as [H|H].
    + apply Nat.eqb_eq in H; subst; left; reflexivity.
    + right; apply IH, H.
  - intros H; right; apply IH, H.
Qed.

Lemma awaiting_transfer_in (id : nat) (ps : list pending_op) (key : string) :
  awaiting_transfer id ps = Some key -> In (AwaitTransfer id key) ps.
Proof.
  induction ps as [|o ps IH]; simpl; [discriminate|].
  destruct o as [i|i k].
  - intros H; right; apply IH, H.
  - destruct (Nat.eqb_spec i id) as [->|_].
    + intros H; inversion H; left; reflexivity.
    + intros H; right; apply IH, H.
Qed.

Lemma in_remove_op (id : nat) (o : pending_op) (ps : list pending_op) :
  In o (remove_op id ps) <-> In o ps /\ op_id o <> id.
Proof.
  unfold remove_op; rewrite filter_In.
  destruct (Nat.eqb_spec (op_id o) id); simpl; intuition congruence.
Qed.


(** C2, as stated: [reset()] while the transfer of attempt 0 is in flight
    lands in [isUploading = false], yet when the transfer then answers 204
    the completion callback of that attempt fires. *)
Lemma C2_callback_fires_after_reset :
  let s_mid := fst (run demo_hook_config callback_returns initial_state
                      [UploadFile demo_file; CredentialOk 0 "https://bucket" [] "uploads/u/a.mp3"]) in
  let s_reset := fst (step demo_hook_config callback_returns s_mid Reset) in
  pending s_mid = [AwaitTransfer 0 "uploads/u/a.mp3"]
  /\ isUploading s_reset = false /\ uploadAttempted s_reset = false
  /\ snd (step demo_hook_config callback_returns s_reset (XhrSettled 0 (XhrLoad 204)))
     = [OnUploadComplete 0 "uploads/u/a.mp3"].
Proof. vm_compute; repeat split. Qed.

(** C2, amended.  [reset()] clears [isUploading] (the next render shows it
    false) and [uploadAttempted], fires no callback, leaves the attempt in
    flight untouched, and a second [reset()] changes nothing.  When the
    transfer of that attempt settles afterwards, its callbacks fire as if
    no reset had happened: [onUploadComplete] on 204, followed by
    [onUploadError] when [onUploadComplete] throws, and [onUploadError]
    otherwise. *)
Theorem C2_reset_idle_no_cancel :
  forall (config : upload_config) (cb : string -> option string) (s : hook_state),
    let s' := fst (step config cb s Reset) in
    snd (step config cb s Reset) = []
    /\ isUploading s' = false /\ uploadAttempted s' = false
    /\ render_isUploading (fst (step config cb s' Render)) = false
    /\ pending s' = pending s /\ next_id s' = next_id s
    /\ step config cb s' Reset = (s', [])
    /\ (forall (id : nat) (key : string) (e : xhr_event),
          awaiting_transfer id (pending s) = Some key ->
          snd (step config cb s' (XhrSettled id e))
            = match uploadToS3_settle e with
              | Resolved =>
                  OnUploadComplete id key
                    :: match cb key with Some msg => [OnUploadError id msg] | None => [] end
              | Rejected msg => [OnUploadError id msg]
              end).
Proof.
  intros config cb s s'; subst s'; simpl.
  repeat split.
  intros id key e Ha; rewrite Ha; destruct (uploadToS3_settle e); reflexivity.
Qed.

Lemma C2_reset_idle_no_cancel_witness :
  snd (step demo_hook_config (fun _ => Some "quota exceeded")
         (fst (step demo_hook_config (fun _ => Some "quota exceeded")
                 (fst (run demo_hook_config (fun _ => Some "quota exceeded") initial_state
                         [UploadFile demo_file; CredentialOk 0 "https://bucket" [] "k"]))
                 Reset))
         (XhrSettled 0 (XhrLoad 204)))
  = [OnUploadComplete 0 "k"; OnUploadError 0 "quota exceeded"].
Proof.
  destruct (C2_reset_idle_no_cancel demo_hook_config (fun _ => Some "quota exceeded")
              (fst (run demo_hook_config (fun _ => Some "quota exceeded") initial_state
                      [UploadFile demo_file; CredentialOk 0 "https://bucket" [] "k"])))
    as [_ [_ [_ [_ [_ [_ [_ Hsettle]]]]]]].
  exact (Hsettle 0%nat "k" (XhrLoad 204) eq_refl).
Defined.

(** C8 (code_bug).  [uploadFile] tests the [isUploading] of the render it
    was created in.  Two calls made before React renders again (say
    [uploadFile(a); uploadFile(b)] in one handler) both pass
    [if (isUploading) return;]: with no [reset()] at all, both attempts
    request a credential and start a transfer, and both are in flight
    together.  Once a render has committed [isUploading = true], a further
    call is a no-op. *)
Theorem C8_same_render_calls_both_start :
  let evs := [UploadFile demo_file; UploadFile demo_file;
              CredentialOk 0 "https://bucket" [] "uploads/u0/a.mp3";
              CredentialOk 1 "https://bucket" [] "uploads/u1/a.mp3"] in
  let '(s, out) := run demo_hook_config callback_returns initial_state evs in
  ~ In Reset evs
  /\ pending s = [AwaitTransfer 0 "uploads/u0/a.mp3"; AwaitTransfer 1 "uploads/u1/a.mp3"]
  /\ out = [NetCredentialRequest 0 demo_file; NetCredentialRequest 1 demo_file;
            NetTransfer 0 "https://bucket" []; NetTransfer 1 "https://bucket" []]
  /\ step demo_hook_config callback_returns
       (fst (step demo_hook_config callback_returns s Render)) (UploadFile demo_file)
     = (fst (step demo_hook_config callback_returns s Render), []).
Proof.
  vm_compute; split; [|repeat split].
  intros H; repeat (destruct H as [H|H]; [discriminate H|]); exact H.
Qed.

(** The [if (!buffer)] branch of [handleDownload] is never taken: whatever
    the object holds, even no bytes at all, a successful fetch is answered
    with 200. *)
Lemma download_empty_object_is_200 :
  status (handleDownload
            {| sign_read := fun k _ => inr k;
               fetch_url := fun _ => FetchResponse true "OK" None (Some []);
               body_read_error := fun _ => "terminated" |}
            (Some {| onDownload := None; onDownload_error := fun _ => "Unknown error"; dl_s3Client := true |})
            (Some (JObj [("s3Key", JStr "uploads/u/a.mp3")]))) = 200.
Proof. reflexivity. Qed.

(** C9, as stated: a download request with a key, handled without an
    [s3Client] (as the default [POST] handler always is), fails with 400,
    neither 404 nor 500. *)
Lemma C9_missing_client_is_400 :
  handleDownload demo_read_backend None (Some (JObj [("s3Key", JStr "uploads/u/a.mp3")]))
    = json_error 400 "Missing s3 client".
Proof. reflexivity. Qed.

(** C9, amended.  A body that is not JSON, or is [null], gets 500.  For a
    parsed body: a falsy [s3Key] gets 400; a key without an [s3Client] gets
    400; with a client, a failing [getFileByS3Key] (signing, fetch,
    non-2xx answer, body read) gets 500, and so does a rejecting
    [onDownload] hook. *)
Theorem C9_download_statuses :
  forall (rb : read_backend) (options : option download_options),
    status (handleDownload rb options None) = 500
    /\ status (handleDownload rb options (Some JNull)) = 500
    /\ forall (b k md : jsval),
         js_get b "s3Key" = Some k -> js_get b "metadata" = Some md ->
         (js_truthy k = false -> status (handleDownload rb options (Some b)) = 400)
         /\ (js_truthy k = true ->
             (forall o, options = Some o -> dl_s3Client o = false) ->
             status (handleDownload rb options (Some b)) = 400)
         /\ (forall o, options = Some o -> dl_s3Client o = true ->
             js_truthy k = true ->
             ((exists msg, getFileByS3Key rb k true = inl msg)
              \/ (exists fd h, getFileByS3Key rb k true = inr fd
                               /\ onDownload o = Some h /\ h (js_to_string k) = false)) ->
             status (handleDownload rb options (Some b)) = 500).
Proof.
  intros rb options; split; [reflexivity|split; [reflexivity|]].
  intros b k md Hk Hmd; unfold handleDownload; rewrite Hk, Hmd.
  split; [|split].
  - intros Hf; rewrite Hf; reflexivity.
  - intros Ht Hc; rewrite Ht; simpl.
    destruct options as [o|]; [|reflexivity].
    rewrite (Hc o eq_refl); reflexivity.
  - intros o -> Hc Ht Hfail; rewrite Ht, Hc; simpl.
    destruct Hfail as [[msg Hg]|[fd [h [Hg [Ho Hh]]]]]; rewrite Hg; [reflexivity|].
    unfold buffer_truthy; simpl; rewrite Ho, Hh; reflexivity.
Qed.

Lemma C9_download_statuses_witness :
  status (handleDownload demo_read_backend None (Some (JObj [("s3Key", JStr "uploads/u/a.mp3")]))) = 400.
Proof.
  apply (proj2 (proj2 (C9_download_statuses demo_read_backend None))
           (JObj [("s3Key", JStr "uploads/u/a.mp3")]) (JStr "uploads/u/a.mp3") JUndef
           eq_refl eq_refl).
  - reflexivity.
  - intros o Ho; discriminate Ho.
Defined.

(* ------------------------------------------------------------------ *)
(** ** Further properties of the code *)

Lemma js_truthy_str (s : string) : s <> "" -> js_truthy (JStr s) = true.
Proof.
  intros H; simpl; destruct (String.eqb_spec s "") as [E|_]; [contradiction|reflexivity].
Qed.

Lemma js_truthy_num (n : Z) : n <> 0 -> js_truthy (JNum n) = true.
Proof. intros H; simpl; rewrite (proj2 (Z.eqb_neq n 0) H); reflexivity. Qed.

Lemma sign_and_respond_calls (bucket uuid : string) (backend : presign_backend) (client : bool)
    (fileName fileType mx : jsval) (c : presign_call) :
  In c (fst (sign_and_respond bucket uuid backend client fileName fileType mx)) ->
  createPresignedUploadUrl_call bucket uuid client fileType fileName mx = Some c.
Proof.
  unfold sign_and_respond.
  destruct (createPresignedUploadUrl_call bucket uuid client fileType fileName mx) as [c'|]; simpl; [|tauto].
  destruct (negb (pc_client c')); [simpl; intros [->|[]]; reflexivity|].
  destruct (backend c') as [[url fields]|]; simpl; intros [->|[]]; reflexivity.
Qed.

Lemma createPresignedUploadUrl_call_shape (bucket uuid : string) (client : bool)
    (fileType fileName mx : jsval) (c : presign_call) :
  createPresignedUploadUrl_call bucket uuid client fileType fileName mx = Some c ->
  pc_client c = client /\ pc_expires c = 600
  /\ pc_key c = "uploads/" ++ uuid ++ "/" ++ js_to_string fileName
  /\ exists rest, pc_conditions c = CContentLengthRange 0 mx :: rest.
Proof.
  unfold createPresignedUploadUrl_call; destruct fileType; try discriminate.
  intros H; inversion H; subst; simpl; repeat split.
  destruct (starts_with s "audio/"); eexists; reflexivity.
Qed.

(** X1.  A request to [route.ts] with a non-empty name and type, a non-zero
    size within the limit (negative sizes included) and an accepted type,
    with an [s3Client], makes exactly one signing call: key
    [uploads/<uuid>/<fileName>], Content-Type field pinned to the declared
    type, expiry 600 s, size range up to the limit.  The response is 200
    with the backend's url and fields and that key, or 500 if signing fails. *)
Theorem route_valid_request_signs_once :
  forall (bucket uuid : string) (backend : presign_backend) (config : upload_config)
         (b : jsval) (fileName fileType : string) (fileSize : Z),
    destructure b = Some (JStr fileName, JStr fileType, JNum fileSize) ->
    fileName <> "" -> fileType <> "" -> fileSize <> 0 ->
    route_includes (allowedFileTypes config) (JStr fileType) = true ->
    fileSize <= maxFileSize config ->
    exists c,
      fst (handleUpload_route bucket uuid backend config true (Some b)) = [c]
      /\ pc_client c = true
      /\ pc_key c = "uploads/" ++ uuid ++ "/" ++ fileName
      /\ pc_fields c = [("Content-Type", fileType)]
      /\ pc_expires c = 600
      /\ In (CContentLengthRange 0 (JNum (maxFileSize config))) (pc_conditions c)
      /\ snd (handleUpload_route bucket uuid backend config true (Some b))
         = match backend c with
           | Some (url, fields) =>
               {| status := 200; body := RJson (presigned_json url fields (pc_key c)) |}
           | None => text_resp 500 "Internal Server Error"
           end.
Proof.
  intros bucket uuid backend config b fn ft fs Hd Hn Ht Hs Hinc Hle.
  unfold handleUpload_route; rewrite Hd.
  rewrite (js_truthy_str fn Hn), (js_truthy_str ft Ht), (js_truthy_num fs Hs), Hinc.
  rewrite js_gt_num_JNum, (proj2 (Z.ltb_ge _ _) Hle); simpl negb; cbv iota.
  unfold sign_and_respond, createPresignedUploadUrl_call.
  destruct (starts_with ft "audio/");
    match goal with |- context [backend ?c] =>
      exists c; destruct (backend c) as [[url fields]|]
    end; simpl; repeat split; left; reflexivity.
Qed.

Lemma route_valid_request_signs_once_witness :
  fst (handleUpload_route "bucket" "uuid" demo_backend
         {| allowedFileTypes := Types ["audio/mpeg"]; maxFileSize := 5242880 |} true
         (Some demo_upload_body))
  = [{| pc_client := true; pc_bucket := "bucket"; pc_key := "uploads/uuid/a.mp3";
        pc_conditions := [CContentLengthRange 0 (JNum 5242880); CStartsWith "$Content-Type" "audio/"];
        pc_fields := [("Content-Type", "audio/mpeg")]; pc_expires := 600 |}].
Proof.
  destruct (route_valid_request_signs_once "bucket" "uuid" demo_backend
              {| allowedFileTypes := Types ["audio/mpeg"]; maxFileSize := 5242880 |}
              demo_upload_body "a.mp3" "audio/mpeg" 1000
              eq_refl ltac:(discriminate) ltac:(discriminate) ltac:(discriminate)
              eq_refl ltac:(simpl; lia))
    as [c [Hc _]].
  rewrite Hc; vm_compute in Hc; inversion Hc; reflexivity.
Defined.

(** X2.  The default [POST] upload handler never calls the signing backend:
    it passes no [s3Client], so every request ends in 400 or 500. *)
Theorem POST_upload_never_signs :
  forall (bucket uuid : string) (backend : presign_backend) (req : request_body),
    fst (POST_upload bucket uuid backend req) = []
    /\ (status (snd (POST_upload bucket uuid backend req)) = 400
        \/ status (snd (POST_upload bucket uuid backend req)) = 500).
Proof.
  intros bucket uuid backend [b|]; unfold POST_upload, handleUpload_route; simpl negb;
    [|split; [reflexivity|right; reflexivity]].
  destruct (destructure b) as [[[fn ft] fs]|]; [|split; [reflexivity|right; reflexivity]].
  repeat match goal with
         | |- context [if ?c then _ else _] => destruct c
         end; simpl; split; auto.
Qed.

(** X3.  The sibling upload handler calls [createPresignedUploadUrl] with only
    [fileName] and [fileType]: every signing call it makes has no [S3Client]
    and the size range [[0, undefined]], whatever its configured limit. *)
Theorem presigned_handler_sign_call_has_no_limit :
  forall (bucket uuid : string) (backend : presign_backend) (config : upload_config)
         (req : request_body) (c : presign_call),
    In c (fst (handleUpload_presigned bucket uuid backend config req)) ->
    pc_client c = false /\ exists rest, pc_conditions c = CContentLengthRange 0 JUndef :: rest.
Proof.
  intros bucket uuid backend config [b|] c; unfold handleUpload_presigned; [|simpl; tauto].
  destruct (destructure b) as [[[fn ft] fs]|]; [|simpl; tauto].
  repeat match goal with
         | |- context [if ?x then _ else _] => destruct x
         end; try (simpl; tauto).
  intros Hin; destruct (createPresignedUploadUrl_call_shape _ _ _ _ _ _ _
                          (sign_and_respond_calls _ _ _ _ _ _ _ _ Hin)) as [Hcl [_ [_ Hr]]].
  split; [exact Hcl | exact Hr].
Qed.

Lemma presigned_handler_sign_call_has_no_limit_witness :
  let c := {| pc_client := false; pc_bucket := "bucket"; pc_key := "uploads/uuid/a.mp3";
              pc_conditions := [CContentLengthRange 0 JUndef; CStartsWith "$Content-Type" "audio/"];
              pc_fields := [("Content-Type", "audio/mpeg")]; pc_expires := 600 |} in
  In c (fst (handleUpload_presigned "bucket" "uuid" demo_backend
               {| allowedFileTypes := AnyType; maxFileSize := 5242880 |} (Some demo_upload_body)))
  /\ pc_client c = false.
Proof.
  intros c; split; [vm_compute; left; reflexivity|].
  apply (presigned_handler_sign_call_has_no_limit "bucket" "uuid" demo_backend
           {| allowedFileTypes := AnyType; maxFileSize := 5242880 |} (Some demo_upload_body) c).
  vm_compute; left; reflexivity.
Defined.

Lemma existsb_eqb_iff (l : list string) (s : string) :
  existsb (String.eqb s) l = true <-> In s l.
Proof.
  split; [|apply existsb_eqb_in].
  intros H; apply existsb_exists in H; destruct H as [x [Hx He]].
  apply String.eqb_eq in He; subst; exact Hx.
Qed.

(** X6.  The default [POST] download handler never reaches the storage
    backend: its answer does not depend on the backend at all and is 400 or
    500 for every request. *)
Theorem POST_download_never_reads :
  forall (rb rb' : read_backend) (req : request_body),
    POST_download rb req = POST_download rb' req
    /\ (status (POST_download rb req) = 400 \/ status (POST_download rb req) = 500).
Proof.
  intros rb rb' [b|]; unfold POST_download, handleDownload; [|split; [reflexivity|right; reflexivity]].
  destruct (js_get b "s3Key") as [k|]; destruct (js_get b "metadata") as [md|];
    try (split; [reflexivity|right; reflexivity]).
  destruct (js_truthy k); simpl; split; auto.
Qed.

(** X7.  When the key is present, a client is given, signing succeeds, the
    fetch answers ok with bytes [bs] and the hook (if any) resolves, the
    download answers 200 with [bs] in base64, [size] the byte count, the
    content-type header (an empty header reads as [undefined]) and the
    request's [metadata], [{}] when absent.  This holds for [bs = []] too. *)
Theorem download_success_response :
  forall (rb : read_backend) (o : download_options) (b k md : jsval)
         (url st : string) (ct : option string) (bs : list Z),
    js_get b "s3Key" = Some k -> js_get b "metadata" = Some md ->
    js_truthy k = true -> dl_s3Client o = true ->
    sign_read rb (js_to_string k) true = inr url ->
    fetch_url rb url = FetchResponse true st ct (Some bs) ->
    (forall h, onDownload o = Some h -> h (js_to_string k) = true) ->
    handleDownload rb (Some o) (Some b)
    = {| status := 200;
         body := RJson (JObj
           [("buffer", JStr (base64 bs));
            ("size", JNum (Z.of_nat (List.length bs)));
            ("contentType", match ct with
                            | Some c => if String.eqb c "" then JUndef else JStr c
                            | None => JUndef
                            end);
            ("metadata", match md with JUndef => JObj [] | _ => md end)]) |}.
Proof.
  intros rb o b k md url st ct bs Hk Hmd Ht Hc Hs Hf Hh.
  unfold handleDownload, getFileByS3Key; rewrite Hk, Hmd, Ht, Hc; simpl negb; cbv iota.
  rewrite Hs, Hf.
  unfold buffer_truthy; simpl negb; cbv iota.
  destruct (onDownload o) as [h|] eqn:Ho; [rewrite (Hh h eq_refl)|]; simpl negb; cbv iota;
    destruct ct as [c|]; try reflexivity;
    destruct c; reflexivity.
Qed.

Lemma download_success_response_witness :
  status (handleDownload demo_read_backend (Some {| onDownload := None; onDownload_error := fun _ => "Unknown error"; dl_s3Client := true |})
            (Some (JObj [("s3Key", JStr "uploads/u/a.mp3")]))) = 200.
Proof.
  rewrite (download_success_response demo_read_backend {| onDownload := None; onDownload_error := fun _ => "Unknown error"; dl_s3Client := true |}
             (JObj [("s3Key", JStr "uploads/u/a.mp3")]) (JStr "uploads/u/a.mp3") JUndef
             "https://bucket.s3.amazonaws.com/uploads/u/a.mp3" "OK" (Some "audio/mpeg") [77; 97; 110]
             eq_refl eq_refl eq_refl eq_refl eq_refl eq_refl).
  - reflexivity.
  - intros h Hh; discriminate Hh.
Defined.

(** Effect counts split over appended logs. *)
Lemma count_eff_app (p : effect -> bool) (l1 l2 : list effect) :
  count_eff p (l1 ++ l2) = (count_eff p l1 + count_eff p l2)%nat.
Proof. unfold count_eff; rewrite filter_app, length_app; reflexivity. Qed.

Lemma count_eff_other (k : effect_kind) (id : nat) (out : list effect) :
  (forall e, In e out -> effect_id e <> id) -> count_eff (effect_is k id) out = 0%nat.
Proof.
  unfold count_eff; induction out as [|e out IH]; simpl; [reflexivity|].
  intros H; destruct (effect_is k id e) eqn:E.
  - exfalso; apply (H e (or_introl eq_refl)).
    destruct k, e; simpl in E |- *; try discriminate E; apply Nat.eqb_eq, E.
  - apply IH; intros e' He'; apply H; right; exact He'.
Qed.

(** A step whose effects all concern one attempt [id0] keeps the ledger
    when it keeps it at [id0] and adds no operation for another attempt. *)
Lemma ledger_extend (s s' : hook_state) (log out : list effect) (id0 : nat) :
  attempt_ledger s log ->
  (forall e, In e out -> effect_id e = id0) ->
  (forall k, (count_eff (effect_is k id0) (log ++ out) <= 1)%nat) ->
  (next_id s <= next_id s')%nat -> (id0 < next_id s')%nat ->
  (forall o, In o (pending s') -> In o (pending s) \/ op_id o = id0) ->
  (In (AwaitCredential id0) (pending s') ->
   forall k, k <> KCredential -> count_eff (effect_is k id0) (log ++ out) = 0%nat) ->
  (forall key, In (AwaitTransfer id0 key) (pending s') ->
   count_eff (effect_is KComplete id0) (log ++ out) = 0%nat
   /\ count_eff (effect_is KError id0) (log ++ out) = 0%nat) ->
  attempt_ledger s' (log ++ out).
Proof.
  intros J Hout Hb Hn Hd He Hf Hg id.
  destruct (Nat.eq_dec id id0) as [->|Hne].
  - split; [exact Hb|split; [intros; lia|split; [exact Hf|exact Hg]]].
  - assert (Hc : forall k, count_eff (effect_is k id) (log ++ out) = count_eff (effect_is k id) log).
    { intros k; rewrite count_eff_app, (count_eff_other k id out); [lia|].
      intros e He'; rewrite (Hout e He'); congruence. }
    destruct (J id) as [J1 [J2 [J3 J4]]].
    split; [|split; [|split]].
    + intros k; rewrite Hc; apply J1.
    + intros Hle; destruct (J2 ltac:(lia)) as [J2a J2b]; split.
      * intros k; rewrite Hc; apply J2a.
      * intros o Ho; destruct (He o Ho) as [Ho'|Ho']; [exact (J2b o Ho')|congruence].
    + intros Hin k Hk; rewrite Hc; destruct (He _ Hin) as [H|H];
        [exact (J3 H k Hk)|simpl in H; congruence].
    + intros key Hin; rewrite !Hc; destruct (He _ Hin) as [H|H];
        [exact (J4 key H)|simpl in H; congruence].
Qed.

Lemma ledger_same (s s' : hook_state) (log : list effect) :
  attempt_ledger s log -> pending s' = pending s -> next_id s' = next_id s ->
  attempt_ledger s' (log ++ []).
Proof. intros J Hp Hn; rewrite app_nil_r; intros id; rewrite Hp, Hn; apply J. Qed.

Lemma ledger_started (s : hook_state) (log : list effect) (o : pending_op) :
  attempt_ledger s log -> In o (pending s) -> (op_id o < next_id s)%nat.
Proof.
  intros J Hin; destruct (Nat.lt_ge_cases (op_id o) (next_id s)) as [H|H]; [exact H|].
  exfalso; exact (proj2 (proj1 (proj2 (J (op_id o))) H) o Hin eq_refl).
Qed.

Lemma ledger_step (config : upload_config) (cb : string -> option string)
    (s : hook_state) (log : list effect) (ev : event) :
  attempt_ledger s log ->
  attempt_ledger (fst (step config cb s ev)) (log ++ snd (step config cb s ev)).
Proof.
  intros J; destruct ev as [f|id url fields key|id msg|id e| |]; unfold step.
  - destruct (render_isUploading s); [simpl; apply (ledger_same s); auto|].
    destruct (J (next_id s)) as [_ [J2 _]]; destruct (J2 (le_n _)) as [Z0 Nop].
    destruct (validate_client _ _ _ _) as [msg|];
      apply (ledger_extend s _ log _ (next_id s) J); simpl; try lia.
    + intros e [<-|[]]; reflexivity.
    + intros k; rewrite count_eff_app, Z0; destruct k; unfold count_eff; simpl;
        rewrite ?Nat.eqb_refl; simpl; lia.
    + intros o Ho; left; exact Ho.
    + intros Hin; exfalso; exact (Nop _ Hin eq_refl).
    + intros key Hin; exfalso; exact (Nop _ Hin eq_refl).
    + intros e [<-|[]]; reflexivity.
    + intros k; rewrite count_eff_app, Z0; destruct k; unfold count_eff; simpl;
        rewrite ?Nat.eqb_refl; simpl; lia.
    + intros o Ho; apply in_app_or in Ho; destruct Ho as [Ho|[<-|[]]];
        [left; exact Ho|right; reflexivity].
    + intros _ k Hk; rewrite count_eff_app, Z0; destruct k;
        [contradiction|reflexivity|reflexivity|reflexivity].
    + intros key Hin; exfalso; apply in_app_or in Hin; destruct Hin as [Hin|[H|[]]];
        [exact (Nop _ Hin eq_refl)|discriminate H].
  - destruct (awaiting_credential id (pending s)) eqn:Ha; [|simpl; apply (ledger_same s); auto].
    apply awaiting_credential_in in Ha.
    pose proof (ledger_started s log _ J Ha) as Hlt; simpl in Hlt.
    destruct (J id) as [J1 [_ [J3 _]]].
    apply (ledger_extend s _ log _ id J); simpl; try lia.
    + intros e [<-|[]]; reflexivity.
    + intros k; rewrite count_eff_app; destruct k; unfold count_eff at 2; simpl;
        rewrite ?Nat.eqb_refl; simpl;
        [pose proof (J1 KCredential)
        |rewrite (J3 Ha KTransfer ltac:(discriminate))
        |pose proof (J1 KComplete)
        |pose proof (J1 KError)]; lia.
    + intros o Ho; apply in_app_or in Ho; destruct Ho as [Ho|[<-|[]]];
        [left; apply in_remove_op in Ho; exact (proj1 Ho)|right; reflexivity].
    + intros Hin; exfalso; apply in_app_or in Hin; destruct Hin as [Hin|[H|[]]];
        [apply in_remove_op in Hin; apply (proj2 Hin); reflexivity|discriminate H].
    + intros key' _; rewrite !count_eff_app, (J3 Ha KComplete ltac:(discriminate)),
        (J3 Ha KError ltac:(discriminate)); split; reflexivity.
  - destruct (awaiting_credential id (pending s)) eqn:Ha; [|simpl; apply (ledger_same s); auto].
    apply awaiting_credential_in in Ha.
    pose proof (ledger_started s log _ J Ha) as Hlt; simpl in Hlt.
    destruct (J id) as [J1 [_ [J3 _]]].
    apply (ledger_extend s _ log _ id J); simpl; try lia.
    + intros e [<-|[]]; reflexivity.
    + intros k; rewrite count_eff_app; destruct k; unfold count_eff at 2; simpl;
        rewrite ?Nat.eqb_refl; simpl;
        [pose proof (J1 KCredential)
        |pose proof (J1 KTransfer)
        |pose proof (J1 KComplete)
        |rewrite (J3 Ha KError ltac:(discriminate))]; lia.
    + intros o Ho; left; apply in_remove_op in Ho; exact (proj1 Ho).
    + intros Hin; exfalso; apply in_remove_op in Hin; apply (proj2 Hin); reflexivity.
    + intros key Hin; exfalso; apply in_remove_op in Hin; apply (proj2 Hin); reflexivity.
  - destruct (awaiting_transfer id (pending s)) as [key|] eqn:Ha; [|simpl; apply (ledger_same s); auto].
    apply awaiting_transfer_in in Ha.
    pose proof (ledger_started s log _ J Ha) as Hlt; simpl in Hlt.
    destruct (J id) as [J1 [_ [_ J4]]]; destruct (J4 key Ha) as [Hc0 He0].
    assert (Hfin : forall out,
      (forall e, In e out -> effect_id e = id) ->
      (count_eff (effect_is KComplete id) out <= 1)%nat ->
      (count_eff (effect_is KError id) out <= 1)%nat ->
      (forall k, k = KCredential \/ k = KTransfer -> count_eff (effect_is k id) out = 0%nat) ->
      attempt_ledger (finish s id) (log ++ out)).
    { intros out Ho Hoc Hoe Hot.
      apply (ledger_extend s _ log _ id J); simpl; try lia.
      - exact Ho.
      - intros k; rewrite count_eff_app; destruct k;
          [rewrite (Hot KCredential (or_introl eq_refl)); pose proof (J1 KCredential)
          |rewrite (Hot KTransfer (or_intror eq_refl)); pose proof (J1 KTransfer)
          |rewrite Hc0
          |rewrite He0]; lia.
      - intros o Ho'; left; apply in_remove_op in Ho'; exact (proj1 Ho').
      - intros Hin; exfalso; apply in_remove_op in Hin; apply (proj2 Hin); reflexivity.
      - intros key' Hin; exfalso; apply in_remove_op in Hin; apply (proj2 Hin); reflexivity. }
    destruct (uploadToS3_settle e) as [|msg]; [destruct (cb key) as [msg|]|];
      (apply Hfin;
      [intros e' He'; simpl in He'; repeat (destruct He' as [<-|He']; [reflexivity|]); destruct He'
      |unfold count_eff; simpl; rewrite ?Nat.eqb_refl; simpl; lia
      |unfold count_eff; simpl; rewrite ?Nat.eqb_refl; simpl; lia
      |intros k [-> | ->]; reflexivity]).
  - simpl; apply (ledger_same s); auto.
  - simpl; apply (ledger_same s); auto.
Qed.

Lemma ledger_run (config : upload_config) (cb : string -> option string) (evs : list event) :
  forall (s : hook_state) (log : list effect),
    attempt_ledger s log ->
    attempt_ledger (fst (run config cb s evs)) (log ++ snd (run config cb s evs)).
Proof.
  induction evs as [|ev evs IH]; simpl; intros s log J.
  - rewrite app_nil_r; exact J.
  - pose proof (ledger_step config cb s log ev J) as J1.
    destruct (step config cb s ev) as [s1 out1]; simpl in J1.
    pose proof (IH s1 (log ++ out1)%list J1) as J2.
    destruct (run config cb s1 evs) as [s2 out2]; simpl in J2 |- *.
    rewrite app_assoc; exact J2.
Qed.

Lemma ledger_initial : attempt_ledger initial_state [].
Proof.
  intros id; split; [intros k; unfold count_eff; simpl; lia|].
  split; [intros _; split; [reflexivity|intros o []]|].
  split; [intros []|intros key []].
Qed.

(** X10.  Whatever the events (calls, [reset()], renders, and network
    answers in any order, late ones included) and whatever
    [onUploadComplete] does, each attempt [uploadFile] starts has at most
    one credential request, at most one transfer, at most one
    [onUploadComplete] and at most one [onUploadError]. *)
Theorem hook_at_most_once_per_attempt :
  forall (config : upload_config) (cb : string -> option string)
         (evs : list event) (id : nat) (k : effect_kind),
    (count_eff (effect_is k id) (snd (run config cb initial_state evs)) <= 1)%nat.
Proof.
  intros config cb evs id k.
  exact (proj1 (ledger_run config cb evs initial_state [] ledger_initial id) k).
Qed.







(** X5.  With a list of allowed types, for a file whose name and type are
    non-empty and whose size is not 0, the hook's own checks pass exactly
    when [route.ts]'s [handleUpload], given a client and a backend that
    answers every signing call, responds 200 to the body the hook sends. *)
Theorem client_server_agree_on_list_policy :
  forall (bucket uuid : string) (backend : presign_backend)
         (l : list string) (M : Z) (f : file),
    name f <> "" -> ftype f <> "" -> fsize f <> 0 ->
    (forall c, backend c <> None) ->
    (validate_client (Types l) M (ftype f) (fsize f) = None
     <-> status (snd (handleUpload_route bucket uuid backend
                        {| allowedFileTypes := Types l; maxFileSize := M |} true
                        (Some (hook_request_body f)))) = 200).
Proof.
  intros bucket uuid backend l M f Hn Ht Hs Hb.
  unfold handleUpload_route, hook_request_body, destructure; simpl.
  apply String.eqb_neq in Hn; apply String.eqb_neq in Ht; apply Z.eqb_neq in Hs.
  rewrite Hn, Ht, Hs, js_gt_num_JNum; simpl.
  destruct (existsb (String.eqb (ftype f)) l); simpl; [|split; discriminate].
  destruct (M <? fsize f); simpl; [split; discriminate|].
  unfold sign_and_respond, createPresignedUploadUrl_call; simpl.
  destruct (backend _) as [[url fields]|] eqn:E; [simpl; split; reflexivity|].
  exfalso; exact (Hb _ E).
Qed.

Lemma client_server_agree_on_list_policy_witness :
  validate_client (Types ["audio/mpeg"]) 5242880 (ftype demo_file) (fsize demo_file) = None
  <-> status (snd (handleUpload_route "bucket" "u" demo_backend
                     {| allowedFileTypes := Types ["audio/mpeg"]; maxFileSize := 5242880 |} true
                     (Some (hook_request_body demo_file)))) = 200.
Proof.
  apply client_server_agree_on_list_policy.
  - discriminate.
  - discriminate.
  - discriminate.
  - intros c; unfold demo_backend; discriminate.
Defined.
